(** * make_table.py: selection of bright catalogue rows

    A shallow embedding of [row_is_valid] and [short_table] from
    [make_table.py], together with the properties the catalogue
    specification states about them.

    The FITS reader and writer are library calls and are not modelled:
    the development starts from the loaded record array.  The conversion
    astropy applies to a value when a row is added to a table belongs to the
    libraries as well: it is a parameter of the development. *)

From Stdlib Require Import QArith.
From stdpp Require Import gmap strings list.

Local Open Scope string_scope.
Local Open Scope nat_scope.
Local Open Scope list_scope.

(** ** Flux values

    A flux cell is a numpy floating-point scalar.  Comparison of floats is
    exact, so a finite float is modelled by the rational it denotes; the
    three special values are kept because they change what [>] answers. *)

Inductive flux : Type :=
  | NaN
  | NInf
  | Fin (q : Q)
  | PInf.

(** Python's [a < b] on floats: false as soon as one side is NaN. *)
Definition flux_ltb (a b : flux) : bool :=
  match a, b with
  | NInf, Fin _ | NInf, PInf | Fin _, PInf => true
  | Fin x, Fin y => negb (Qle_bool y x)
  | _, _ => false
  end.

(** Python's [a > b]. *)
Definition flux_gtb (a b : flux) : bool := flux_ltb b a.

(** Python's [a <= b]. *)
Definition flux_leb (a b : flux) : bool :=
  match a, b with
  | NInf, NInf | NInf, Fin _ | NInf, PInf | Fin _, PInf | PInf, PInf => true
  | Fin x, Fin y => Qle_bool x y
  | _, _ => false
  end.

(** The mathematical reading of the three comparisons, used to state
    properties. *)
Definition flux_lt (a b : flux) : Prop :=
  match a, b with
  | NInf, Fin _ | NInf, PInf | Fin _, PInf => True
  | Fin x, Fin y => Qlt x y
  | _, _ => False
  end.

Definition flux_le (a b : flux) : Prop :=
  match a, b with
  | NInf, NInf | NInf, Fin _ | NInf, PInf | Fin _, PInf | PInf, PInf => True
  | Fin x, Fin y => Qle x y
  | _, _ => False
  end.

(** Numeric equality ([==] on floats): NaN equals nothing. *)
Definition flux_eq (a b : flux) : Prop :=
  match a, b with
  | NInf, NInf | PInf, PInf => True
  | Fin x, Fin y => Qeq x y
  | _, _ => False
  end.

(** ** Rows and tables *)

(** A row is read by column name only ([row["u_flux"]]). *)
Abbreviation Row := (gmap string flux).

(** The record array [read_fits] returns, which [short_table] scans:
    [table.columns.names], [table.columns.dtype] (one storage dtype per
    column) and the rows in file order. *)
Record FITS_rec : Type := mkFITS_rec {
  columns_names : list string;
  columns_dtype : list string;
  records : list Row
}.

(** The astropy [Table] that [short_table] builds: the column names, the
    dtype of each column, and the rows added so far.  It is another type
    than the record array: it has no [columns.names]. *)
Record Table : Type := mkTable {
  names : list string;
  dtype : list string;
  rows : list Row
}.

(** [Table(names=..., dtype=...)]: no rows yet. *)
Definition new_Table (ns ds : list string) : Table := mkTable ns ds [].

(** [len(selection)] *)
Definition len (t : Table) : nat := length (rows t).

(** ** Evaluation: exceptions and the trace of column reads

    A computation yields the list of column names it has read, in the order
    of the reads, and either a value or the exception that stopped it.  A
    read is a lookup [row[column]] of the predicate or the read of one field
    of a row that [add_row] copies.

    [KeyError] is the one exception the modelled code can raise: thresholds
    and cells are floats, so a comparison does not raise, and the table that
    is scanned is a record array, on which line 26 does not raise. *)

Inductive exn : Type :=
  | KeyError (column : string).

Inductive result (A : Type) : Type :=
  | Ok (a : A)
  | Raise (e : exn).
Arguments Ok {A} a.
Arguments Raise {A} e.

Definition M (A : Type) : Type := (list string * result A)%type.

Definition ret {A} (a : A) : M A := ([], Ok a).

Definition bind {A B} (m : M A) (k : A → M B) : M B :=
  match m with
  | (t, Ok a) => let '(t', r) := k a in (t ++ t', r)
  | (t, Raise e) => (t, Raise e)
  end.

Notation "x <~ m ;; k" := (bind m (fun x => k))
  (at level 100, m at next level, right associativity).

Definition trace {A} (m : M A) : list string := fst m.
Definition outcome {A} (m : M A) : result A := snd m.

(** [row[column]] *)
Definition getitem (row : Row) (column : string) : M flux :=
  ([column],
   match row !! column with
   | Some v => Ok v
   | None => Raise (KeyError column)
   end).

(** ** The library's part in [add_row] *)

Section selection.

(** numpy's conversion of a value to the dtype named [d].  A column of a
    [Table] holds values of its dtype, so a value that enters the column is
    converted to it. *)
Variable astype : string → flux → flux.

(** The row as a table with columns [ns] of dtypes [ds] stores it: each
    column of the table, in order, takes the row's value for it, converted
    to the dtype of the column. *)
Definition stored_row (ns ds : list string) (row : Row) : Row :=
  list_to_map
    (omap (λ '(n, d), (λ v, (n, astype d v)) <$> row !! n) (zip ns ds)).

(** The table after [selection.add_row(row)]: the stored row goes last. *)
Definition appended (t : Table) (row : Row) : Table :=
  mkTable (names t) (dtype t) (rows t ++ [stored_row (names t) (dtype t) row]).

(** [selection.add_row(row)] reads the fields of the row one by one, in
    column order. *)
Definition add_row (t : Table) (row : Row) : M Table :=
  (names t, Ok (appended t row)).

(** ** The program *)

(** One conjunct of the predicate: [row[column] > lim]. *)
Definition exceeds (row : Row) (column : string) (lim : flux) : M bool :=
  v <~ getitem row column ;; ret (flux_gtb v lim).

(** [x or y]: [y] is evaluated only when [x] is false. *)
Definition or_else (x : M bool) (y : M bool) : M bool :=
  a <~ x ;; if a then ret a else y.

Definition row_is_valid (row : Row) (lim : flux) : M bool :=
  c1 <~ exceeds row "u_flux" lim ;;
  c2 <~ exceeds row "g_flux" lim ;;
  c3 <~ exceeds row "z_flux" lim ;;
  c4 <~ exceeds row "r_flux" lim ;;
  c5 <~ exceeds row "z_flux" lim ;;
  c6 <~ exceeds row "J_flux" lim ;;
  c7 <~ or_else (exceeds row "ch1_swire_flux" lim)
                (exceeds row "ch1_servs_flux" lim) ;;
  c8 <~ exceeds row "F_SPIRE_250" lim ;;
  c9 <~ exceeds row "F_PACS_160" lim ;;
  c10 <~ exceeds row "F_PACS_100" lim ;;
  c11 <~ exceeds row "K_flux" lim ;;
  c12 <~ exceeds row "F_MIPS_24" lim ;;
  ret (c1 && c2 && c3 && c4 && c5 && c6 && c7 && c8 && c9 && c10 && c11 && c12).

(** The body of [for row in table]: [selection] is the table built so far. *)
Fixpoint short_table_loop (todo : list Row) (lim : flux) (selection : Table)
  : M Table :=
  match todo with
  | [] => ret selection
  | row :: rest =>
      if 50 <=? len selection then ret selection
      else
        ok <~ row_is_valid row lim ;;
        if ok then
          selection' <~ add_row selection row ;;
          short_table_loop rest lim selection'
        else short_table_loop rest lim selection
  end.

Definition short_table (table : FITS_rec) (lim : flux) : M Table :=
  short_table_loop (records table) lim
    (new_Table (columns_names table) (columns_dtype table)).

(** ** Vocabulary of the specification *)

(** The columns that must each exceed the threshold. *)
Definition required_columns : list string :=
  ["u_flux"; "g_flux"; "r_flux"; "z_flux"; "J_flux"; "K_flux";
   "F_SPIRE_250"; "F_PACS_160"; "F_PACS_100"; "F_MIPS_24"].

(** The twelve columns the input file must expose. *)
Definition flux_columns : list string :=
  required_columns ++ ["ch1_swire_flux"; "ch1_servs_flux"].

Definition has_columns (row : Row) (columns : list string) : Prop :=
  Forall (λ c, is_Some (row !! c)) columns.

(** The value of [column] in [row] is strictly greater than [lim]. *)
Definition above (row : Row) (lim : flux) (column : string) : Prop :=
  ∃ v, row !! column = Some v ∧ flux_lt lim v.

(** The computation ends with a value, not with an exception. *)
Definition returns {A} (m : M A) : Prop := ∃ a, outcome m = Ok a.

(** The row passes the predicate at threshold [lim]. *)
Definition qualifies (lim : flux) (row : Row) : Prop :=
  outcome (row_is_valid row lim) = Ok true.

#[global] Instance exn_eq_dec : EqDecision exn.
Proof. solve_decision. Defined.

#[global] Instance result_eq_dec {A} `{EqDecision A} : EqDecision (result A).
Proof. solve_decision. Defined.

#[global] Instance qualifies_dec lim row : Decision (qualifies lim row).
Proof. unfold qualifies. apply _. Defined.

(** The predicate as the specification words it for a reimplementation:
    one check per column, the second [z_flux] conjunct dropped. *)
Definition row_is_valid_dedup (row : Row) (lim : flux) : M bool :=
  c1 <~ exceeds row "u_flux" lim ;;
  c2 <~ exceeds row "g_flux" lim ;;
  c3 <~ exceeds row "z_flux" lim ;;
  c4 <~ exceeds row "r_flux" lim ;;
  c6 <~ exceeds row "J_flux" lim ;;
  c7 <~ or_else (exceeds row "ch1_swire_flux" lim)
                (exceeds row "ch1_servs_flux" lim) ;;
  c8 <~ exceeds row "F_SPIRE_250" lim ;;
  c9 <~ exceeds row "F_PACS_160" lim ;;
  c10 <~ exceeds row "F_PACS_100" lim ;;
  c11 <~ exceeds row "K_flux" lim ;;
  c12 <~ exceeds row "F_MIPS_24" lim ;;
  ret (c1 && c2 && c3 && c4 && c6 && c7 && c8 && c9 && c10 && c11 && c12).

(** The columns [row_is_valid] reads on a row it can evaluate to the end,
    in reading order; [swire] tells whether [ch1_swire_flux > lim] held. *)
Definition reads (swire : bool) : list string :=
  ["u_flux"; "g_flux"; "z_flux"; "r_flux"; "z_flux"; "J_flux";
   "ch1_swire_flux"]
  ++ (if swire then [] else ["ch1_servs_flux"])
  ++ ["F_SPIRE_250"; "F_PACS_160"; "F_PACS_100"; "K_flux"; "F_MIPS_24"].

(** The columns whose read does not depend on any value of the row. *)
Definition always_read : list string :=
  ["u_flux"; "g_flux"; "z_flux"; "r_flux"; "J_flux"; "ch1_swire_flux";
   "F_SPIRE_250"; "F_PACS_160"; "F_PACS_100"; "K_flux"; "F_MIPS_24"].

(** Sample rows: every flux column set to [v], except [ch1_swire_flux],
    set to [w]. *)
Definition sample_row (v w : flux) : Row :=
  list_to_map
    [("u_flux", v); ("g_flux", v); ("r_flux", v); ("z_flux", v);
     ("J_flux", v); ("K_flux", v); ("ch1_swire_flux", w);
     ("ch1_servs_flux", v); ("F_SPIRE_250", v); ("F_PACS_160", v);
     ("F_PACS_100", v); ("F_MIPS_24", v)].

(** A row that passes at threshold 10 through [ch1_servs_flux] only. *)
Definition bright : Row := sample_row (Fin 100) (Fin 5).

(** A row that fails every check at threshold 10. *)
Definition dim : Row := sample_row (Fin 1) (Fin 1).


Definition sample_table (n : nat) : FITS_rec :=
  mkFITS_rec flux_columns (replicate 12 "f8") (replicate n bright).

(** A dim row between two bright ones. *)
Definition mixed_table : FITS_rec :=
  mkFITS_rec flux_columns (replicate 12 "f8")
    [bright; dim; <["u_flux" := Fin 200]> bright].


(** The conversion on the two dtypes of the sample tables: a float64 column
    keeps a float as it is; an int16 column truncates a finite value toward
    zero (10.5 becomes 10). *)
Definition sample_astype (d : string) (v : flux) : flux :=
  if decide (d = "i2") then
    match v with
    | Fin q => Fin (inject_Z (Z.quot (Qnum q) (Z.pos (Qden q))))
    | _ => v
    end
  else v.


(** * Properties *)

(** ** Comparisons *)

Lemma flux_ltb_lt a b : flux_ltb a b = true ↔ flux_lt a b.
Proof.
  destruct a as [| |x|], b as [| |y|]; simpl;
    try (split; [discriminate | tauto]); try tauto.
  rewrite negb_true_iff. split; intros H.
  - apply Qnot_le_lt. intros Hle. apply Qle_bool_iff in Hle. congruence.
  - destruct (Qle_bool y x) eqn:E; [|done].
    apply Qle_bool_iff in E. exfalso. revert E. by apply Qlt_not_le.
Qed.

Lemma flux_gtb_lt v lim : flux_gtb v lim = true ↔ flux_lt lim v.
Proof. apply flux_ltb_lt. Qed.

Lemma flux_leb_le a b : flux_leb a b = true ↔ flux_le a b.
Proof.
  destruct a as [| |x|], b as [| |y|]; simpl;
    try (split; [discriminate | tauto]); try tauto.
  apply Qle_bool_iff.
Qed.

Lemma flux_lt_irrefl a b : flux_eq a b → ¬ flux_lt b a.
Proof.
  destruct a as [| |x|], b as [| |y|]; simpl; try tauto.
  intros Heq Hlt. rewrite Heq in Hlt. by apply Qlt_irrefl in Hlt.
Qed.

Lemma flux_le_lt_trans a b c : flux_le a b → flux_lt b c → flux_lt a c.
Proof.
  destruct a as [| |x|], b as [| |y|], c as [| |z|]; simpl; try tauto.
  apply Qle_lt_trans.
Qed.

Lemma flux_gtb_eq v lim : flux_eq v lim → flux_gtb v lim = false.
Proof.
  intros Heq. destruct (flux_gtb v lim) eqn:E; [|done].
  apply flux_gtb_lt in E. by apply flux_lt_irrefl in E.
Qed.

Lemma flux_gtb_mono v lim1 lim2 :
  flux_leb lim1 lim2 = true → flux_gtb v lim2 = true → flux_gtb v lim1 = true.
Proof.
  rewrite flux_leb_le, !flux_gtb_lt. apply flux_le_lt_trans.
Qed.

(** ** The evaluation monad *)

Lemma outcome_ret {A} (a : A) : outcome (ret a) = Ok a.
Proof. reflexivity. Qed.

Lemma trace_ret {A} (a : A) : trace (ret a) = [].
Proof. reflexivity. Qed.

Lemma outcome_bind {A B} (m : M A) (k : A → M B) :
  outcome (bind m k) =
  match outcome m with
  | Ok a => outcome (k a)
  | Raise e => Raise e
  end.
Proof.
  destruct m as [t [a|e]]; simpl; [|done]. by destruct (k a).
Qed.

Lemma trace_bind {A B} (m : M A) (k : A → M B) :
  trace (bind m k) =
  trace m ++ match outcome m with
             | Ok a => trace (k a)
             | Raise _ => []
             end.
Proof.
  destruct m as [t [a|e]]; simpl; [|by rewrite app_nil_r]. by destruct (k a).
Qed.

(** ** One conjunct *)

Lemma outcome_exceeds row c lim :
  outcome (exceeds row c lim) =
  match row !! c with
  | Some v => Ok (flux_gtb v lim)
  | None => Raise (KeyError c)
  end.
Proof. unfold exceeds, getitem. simpl. by destruct (row !! c). Qed.

Lemma trace_exceeds row c lim : trace (exceeds row c lim) = [c].
Proof. unfold exceeds, getitem. simpl. by destruct (row !! c). Qed.

Lemma outcome_bind_exceeds {B} row c lim (k : bool → M B) :
  outcome (bind (exceeds row c lim) k) =
  match row !! c with
  | Some v => outcome (k (flux_gtb v lim))
  | None => Raise (KeyError c)
  end.
Proof. rewrite outcome_bind, outcome_exceeds. by destruct (row !! c). Qed.

Lemma trace_bind_exceeds {B} row c lim (k : bool → M B) :
  trace (bind (exceeds row c lim) k) =
  c :: match row !! c with
       | Some v => trace (k (flux_gtb v lim))
       | None => []
       end.
Proof.
  rewrite trace_bind, trace_exceeds, outcome_exceeds. by destruct (row !! c).
Qed.

(** The disjunction of the two [ch1] columns. *)
Lemma outcome_bind_or_else {B} row c1 c2 lim (k : bool → M B) :
  outcome (bind (or_else (exceeds row c1 lim) (exceeds row c2 lim)) k) =
  match row !! c1 with
  | None => Raise (KeyError c1)
  | Some v1 =>
      if flux_gtb v1 lim then outcome (k true)
      else match row !! c2 with
           | Some v2 => outcome (k (flux_gtb v2 lim))
           | None => Raise (KeyError c2)
           end
  end.
Proof.
  unfold or_else. rewrite outcome_bind, outcome_bind_exceeds.
  destruct (row !! c1) as [v1|]; [|done].
  destruct (flux_gtb v1 lim); [done|].
  rewrite outcome_exceeds. by destruct (row !! c2).
Qed.

Lemma trace_bind_or_else {B} row c1 c2 lim (k : bool → M B) :
  trace (bind (or_else (exceeds row c1 lim) (exceeds row c2 lim)) k) =
  c1 :: match row !! c1 with
        | None => []
        | Some v1 =>
            if flux_gtb v1 lim then trace (k true)
            else c2 :: match row !! c2 with
                       | Some v2 => trace (k (flux_gtb v2 lim))
                       | None => []
                       end
        end.
Proof.
  unfold or_else. rewrite trace_bind, outcome_bind_exceeds, trace_bind_exceeds.
  destruct (row !! c1) as [v1|]; [|done]. simpl.
  destruct (flux_gtb v1 lim); [done|].
  rewrite outcome_exceeds, trace_exceeds. by destruct (row !! c2).
Qed.

Lemma above_Some row lim c v :
  row !! c = Some v → above row lim c ↔ flux_gtb v lim = true.
Proof.
  intros E. rewrite flux_gtb_lt. unfold above. split.
  - intros (w & Hw & Hlt). congruence.
  - eauto.
Qed.

Lemma above_None row lim c : row !! c = None → above row lim c ↔ False.
Proof. intros E. split; [|done]. intros (w & Hw & _). congruence. Qed.

Lemma Ok_true_iff (b : bool) : Ok b = Ok true ↔ b = true.
Proof. split; congruence. Qed.

(** Evaluate the next conjunct of the predicate, reusing what is already
    known about the column it reads. *)
Ltac read_column :=
  first [ rewrite outcome_bind_exceeds | rewrite outcome_bind_or_else
        | rewrite trace_bind_exceeds | rewrite trace_bind_or_else ];
  repeat lazymatch goal with
    | H : ?r !! ?c = _ |- context [ match ?r !! ?c with _ => _ end ] =>
        rewrite H
    | |- context [ match ?r !! ?c with _ => _ end ] =>
        destruct (r !! c) eqn:?
    | |- context [ if flux_gtb ?v ?l then _ else _ ] =>
        destruct (flux_gtb v l) eqn:?
    end.

Ltac know_columns :=
  repeat match goal with
    | E : ?r !! ?c = Some ?v |- context [ above ?r ?l ?c ] =>
        rewrite (above_Some r l c v E)
    | E : ?r !! ?c = None |- context [ above ?r ?l ?c ] =>
        rewrite (above_None r l c E)
    | E : ?r !! ?c = _ |- context [ ?r !! ?c ] => rewrite E
    | E : flux_gtb ?v ?l = _ |- context [ flux_gtb ?v ?l ] => rewrite E
    end.

Lemma qualifies_iff lim row :
  qualifies lim row ↔
  Forall (above row lim) required_columns
  ∧ is_Some (row !! "ch1_swire_flux")
  ∧ (above row lim "ch1_swire_flux" ∨ above row lim "ch1_servs_flux").
Proof.
  unfold qualifies, row_is_valid, required_columns.
  rewrite !Forall_cons, Forall_nil.
  repeat read_column; rewrite ?outcome_ret, ?Ok_true_iff, ?andb_true_iff;
    know_columns; rewrite ?is_Some_alt; intuition congruence.
Qed.

Lemma row_is_valid_returns row lim :
  has_columns row flux_columns → returns (row_is_valid row lim).
Proof.
  unfold has_columns, flux_columns, required_columns, returns, row_is_valid.
  simpl app. rewrite !Forall_cons, Forall_nil, !is_Some_alt.
  intros H. repeat read_column; rewrite ?outcome_ret; know_columns;
    solve [eauto | intuition congruence].
Qed.

Lemma row_is_valid_trace row lim :
  returns (row_is_valid row lim) →
  ∃ swire, row !! "ch1_swire_flux" = Some swire
           ∧ trace (row_is_valid row lim) = reads (flux_gtb swire lim).
Proof.
  unfold returns. intros [b Hb]. revert Hb. unfold row_is_valid.
  repeat read_column; try discriminate; intros _.
  all: eexists; split; [reflexivity|].
  all: unfold row_is_valid; repeat read_column; rewrite ?trace_ret;
    know_columns; reflexivity.
Qed.

Lemma row_is_valid_absent row lim c :
  c ∈ always_read → row !! c = None →
  ∃ c', outcome (row_is_valid row lim) = Raise (KeyError c').
Proof.
  unfold always_read. rewrite !elem_of_cons, elem_of_nil.
  intros Hc E. unfold row_is_valid.
  repeat destruct Hc as [->|Hc]; try done;
    repeat read_column; eauto.
Qed.

Lemma row_is_valid_servs_absent row lim :
  has_columns row always_read → row !! "ch1_servs_flux" = None →
  (above row lim "ch1_swire_flux" → returns (row_is_valid row lim))
  ∧ (¬ above row lim "ch1_swire_flux" →
     outcome (row_is_valid row lim) = Raise (KeyError "ch1_servs_flux")).
Proof.
  unfold has_columns, always_read, returns, row_is_valid.
  rewrite !Forall_cons, Forall_nil, !is_Some_alt.
  intros H E. repeat read_column; rewrite ?outcome_ret; know_columns;
    solve [intuition (eauto || congruence)].
Qed.

Lemma row_is_valid_dedup_outcome row lim :
  outcome (row_is_valid row lim) = outcome (row_is_valid_dedup row lim).
Proof.
  unfold row_is_valid, row_is_valid_dedup.
  repeat read_column; rewrite ?outcome_ret; try reflexivity.
  all: match goal with
       | E : _ !! "z_flux" = Some ?v |- _ => destruct (flux_gtb v lim)
       end.
  all: by rewrite ?andb_true_r, ?andb_false_r.
Qed.

(** ** Monad laws used by the loop *)

Lemma bind_ret_l {A B} (a : A) (k : A → M B) : bind (ret a) k = k a.
Proof. unfold bind, ret. by destruct (k a). Qed.

Lemma bind_assoc {A B C} (m : M A) (f : A → M B) (g : B → M C) :
  bind (bind m f) g = bind m (λ a, bind (f a) g).
Proof.
  destruct m as [t [a|e]]; simpl; [|done].
  destruct (f a) as [t' [b|e]]; simpl; [|done].
  destruct (g b) as [t'' r]. by rewrite app_assoc.
Qed.

Lemma bind_ext {A B} (m : M A) (f g : A → M B) :
  (∀ a, f a = g a) → bind m f = bind m g.
Proof. intros Hfg. destruct m as [t [a|e]]; simpl; [|done]. by rewrite Hfg. Qed.


(** ** The scan *)

Lemma outcome_add_row selection row :
  outcome (add_row selection row) = Ok (appended selection row).
Proof. reflexivity. Qed.


Lemma len_appended selection row :
  len (appended selection row) = S (len selection).
Proof. unfold len, appended. cbn [rows]. rewrite length_app. simpl. lia. Qed.

Lemma short_table_loop_cons lim row rest selection :
  short_table_loop (row :: rest) lim selection =
  if 50 <=? len selection then ret selection
  else bind (row_is_valid row lim) (λ ok : bool,
         if ok then
           bind (add_row selection row)
                (λ selection', short_table_loop rest lim selection')
         else short_table_loop rest lim selection).
Proof. reflexivity. Qed.

(** Once the cap is reached nothing more is read. *)
Lemma short_table_loop_full lim todo selection :
  50 ≤ len selection → short_table_loop todo lim selection = ret selection.
Proof.
  intros Hfull. destruct todo as [|row rest]; [done|].
  rewrite short_table_loop_cons.
  by destruct (Nat.leb_spec 50 (len selection)); [|lia].
Qed.

(** Scanning [pre ++ rest] is scanning [pre], then [rest]. *)
Lemma short_table_loop_app lim pre rest selection :
  short_table_loop (pre ++ rest) lim selection =
  bind (short_table_loop pre lim selection)
       (λ selection', short_table_loop rest lim selection').
Proof.
  revert selection. induction pre as [|row pre IH]; intros selection.
  - cbn [short_table_loop app]. by rewrite bind_ret_l.
  - rewrite <- app_comm_cons, !short_table_loop_cons.
    destruct (Nat.leb_spec 50 (len selection)) as [Hfull|Hroom].
    + by rewrite bind_ret_l, short_table_loop_full.
    + rewrite bind_assoc. apply bind_ext. intros [|]; [|apply IH].
      rewrite bind_assoc. apply bind_ext. intros selection'. apply IH.
Qed.

(** What a scan that ends normally has built. *)
Lemma short_table_loop_Ok lim todo selection res :
  outcome (short_table_loop todo lim selection) = Ok res →
  res = mkTable (names selection) (dtype selection)
          (rows selection
           ++ (stored_row (names selection) (dtype selection)
               <$> take (50 - len selection) (filter (qualifies lim) todo))).
Proof.
  revert selection. induction todo as [|row rest IH]; intros selection.
  - cbn [short_table_loop]. rewrite outcome_ret. intros [= <-].
    rewrite filter_nil, take_nil. cbn [fmap list_fmap].
    rewrite app_nil_r. by destruct selection.
  - rewrite short_table_loop_cons.
    destruct (Nat.leb_spec 50 (len selection)) as [Hfull|Hroom].
    + rewrite outcome_ret. intros [= <-].
      replace (50 - len selection) with 0 by lia.
      rewrite take_0. cbn [fmap list_fmap].
      rewrite app_nil_r. by destruct selection.
    + rewrite outcome_bind.
      destruct (outcome (row_is_valid row lim)) as [[|]|e] eqn:Ev;
        [| |done].
      * rewrite outcome_bind, outcome_add_row.
        intros Hres. apply IH in Hres. subst res.
        rewrite filter_cons_True by done. rewrite len_appended.
        replace (50 - len selection) with (S (50 - S (len selection)))
          by lia.
        unfold appended. cbn [names dtype rows take].
        by rewrite fmap_cons, <- app_assoc.
      * intros Hres. apply IH in Hres. subst res.
        rewrite filter_cons_False; [done|].
        unfold qualifies. congruence.
Qed.

(** A scan over rows that can all be evaluated ends normally. *)
Lemma short_table_loop_returns lim todo selection :
  Forall (λ row, returns (row_is_valid row lim)) todo →
  returns (short_table_loop todo lim selection).
Proof.
  intros Hall. revert selection.
  induction Hall as [|row rest [ok Hok] _ IH]; intros selection.
  - by exists selection.
  - rewrite short_table_loop_cons.
    destruct (Nat.leb_spec 50 (len selection)); [by exists selection|].
    unfold returns. rewrite outcome_bind, Hok. destruct ok; [|apply IH].
    rewrite outcome_bind, outcome_add_row. apply IH.
Qed.


Lemma has_columns_lookup row columns c :
  has_columns row columns → c ∈ columns → is_Some (row !! c).
Proof. unfold has_columns. rewrite Forall_forall. auto. Qed.

Lemma above_mono row lim1 lim2 c :
  flux_leb lim1 lim2 = true → above row lim2 c → above row lim1 c.
Proof.
  rewrite flux_leb_le. intros Hle (v & Hv & Hlt).
  exists v. eauto using flux_le_lt_trans.
Qed.

Lemma qualifies_mono row lim1 lim2 :
  flux_leb lim1 lim2 = true → qualifies lim2 row → qualifies lim1 row.
Proof.
  intros Hle. rewrite !qualifies_iff. intros (Hall & Hswire & Hch1).
  split_and!; [|done|].
  - eapply Forall_impl; [exact Hall|]. intros c. by apply above_mono.
  - destruct Hch1; [left|right]; by eapply above_mono.
Qed.




Lemma short_table_Ok table lim res :
  outcome (short_table table lim) = Ok res →
  res = mkTable (columns_names table) (columns_dtype table)
          (stored_row (columns_names table) (columns_dtype table)
           <$> take 50 (filter (qualifies lim) (records table))).
Proof.
  intros Hres. apply short_table_loop_Ok in Hres. subst res.
  unfold new_Table, len. cbn [names dtype rows length app].
  by rewrite Nat.sub_0_r.
Qed.

Lemma short_table_scan_Ok table lim :
  Forall (λ row, returns (row_is_valid row lim)) (records table) →
  outcome (short_table table lim)
  = Ok (mkTable (columns_names table) (columns_dtype table)
          (stored_row (columns_names table) (columns_dtype table)
           <$> take 50 (filter (qualifies lim) (records table)))).
Proof.
  intros Hall.
  destruct (short_table_loop_returns lim (records table)
              (new_Table (columns_names table) (columns_dtype table)) Hall)
    as [res Hres].
  fold (short_table table lim) in Hres. rewrite Hres.
  by apply short_table_Ok in Hres as ->.
Qed.




(** ** Sample data *)

Lemma bright_has_columns : has_columns bright flux_columns.
Proof.
  unfold has_columns, flux_columns, required_columns. simpl app.
  repeat constructor; apply is_Some_alt; vm_compute; exact I.
Qed.

Lemma bright_qualifies : qualifies (Fin 10) bright.
Proof. vm_compute. reflexivity. Qed.

(** Scenario 3: [ch1_swire_flux] below the threshold, [ch1_servs_flux]
    above it. *)
Example scenario_servs_only :
  outcome (row_is_valid (sample_row (Fin 20) (Fin 5)) (Fin 10)) = Ok true.
Proof. vm_compute. reflexivity. Qed.

(** Scenario 4: [F_MIPS_24] exactly at the threshold. *)
Example scenario_at_threshold :
  outcome (row_is_valid (<["F_MIPS_24" := Fin 10]> bright) (Fin 10))
  = Ok false.
Proof. vm_compute. reflexivity. Qed.

(** ** The predicate *)

(** C1: [row_is_valid] returns true exactly when each of the ten required
    columns is strictly greater than [lim] and at least one of
    [ch1_swire_flux], [ch1_servs_flux] is.  This holds for every threshold
    and every row that has the [ch1_swire_flux] column, so for every row of
    a table with the twelve flux columns, on which the call always returns a
    boolean.  The comparison is strict: the answer is never true when a
    required column equals [lim], nor when both [ch1] columns do. *)
Theorem row_is_valid_iff row lim :
  (is_Some (row !! "ch1_swire_flux") →
   (outcome (row_is_valid row lim) = Ok true ↔
    Forall (above row lim) required_columns
    ∧ (above row lim "ch1_swire_flux" ∨ above row lim "ch1_servs_flux")))
  ∧ (has_columns row flux_columns →
     ∃ b, outcome (row_is_valid row lim) = Ok b)
  ∧ (∀ c v b, c ∈ required_columns → row !! c = Some v → flux_eq v lim →
              outcome (row_is_valid row lim) = Ok b → b = false)
  ∧ (∀ v w b, row !! "ch1_swire_flux" = Some v →
              row !! "ch1_servs_flux" = Some w →
              flux_eq v lim → flux_eq w lim →
              outcome (row_is_valid row lim) = Ok b → b = false).
Proof.
  split_and!.
  - intros Hswire. fold (qualifies lim row). rewrite qualifies_iff. tauto.
  - apply row_is_valid_returns.
  - intros c v b Hc Hv Heq Hb. apply not_true_is_false. intros ->.
    apply qualifies_iff in Hb as (Hall & _). rewrite Forall_forall in Hall.
    destruct (Hall c Hc) as (v' & Hv' & Hlt).
    assert (v' = v) as -> by congruence.
    by apply (flux_lt_irrefl _ _ Heq).
  - intros v w b Hv Hw Heqv Heqw Hb. apply not_true_is_false. intros ->.
    apply qualifies_iff in Hb
      as (_ & _ & [(v' & Hv' & Hlt)|(w' & Hw' & Hlt)]).
    + assert (v' = v) as -> by congruence.
      by apply (flux_lt_irrefl _ _ Heqv).
    + assert (w' = w) as -> by congruence.
      by apply (flux_lt_irrefl _ _ Heqw).
Qed.

(** Scenario 3 read through the equivalence: [bright] passes at threshold 10
    although its [ch1_swire_flux] is 5. *)
Lemma row_is_valid_iff_witness :
  outcome (row_is_valid bright (Fin 10)) = Ok true ↔
  Forall (above bright (Fin 10)) required_columns
  ∧ (above bright (Fin 10) "ch1_swire_flux"
     ∨ above bright (Fin 10) "ch1_servs_flux").
Proof.
  apply (proj1 (row_is_valid_iff bright (Fin 10))).
  apply is_Some_alt. vm_compute. exact I.
Defined.

(** C6: the predicate is non-increasing in the threshold.  If
    [lim1 <= lim2] and the row is valid at [lim2], it is valid at [lim1];
    hence over any list of rows the rows that qualify at [lim2] are a
    sublist of those that qualify at [lim1]. *)
Theorem row_is_valid_monotone lim1 lim2 :
  flux_leb lim1 lim2 = true →
  (∀ row, outcome (row_is_valid row lim2) = Ok true →
          outcome (row_is_valid row lim1) = Ok true)
  ∧ (∀ l : list Row,
       filter (qualifies lim2) l `sublist_of` filter (qualifies lim1) l).
Proof.
  intros Hle. split.
  - intros row. by apply qualifies_mono.
  - induction l as [|row l IH]; [done|].
    destruct (decide (qualifies lim2 row)) as [H2|H2].
    + rewrite !filter_cons_True by eauto using qualifies_mono.
      by apply sublist_skip.
    + rewrite (filter_cons_False (qualifies lim2)) by done.
      destruct (decide (qualifies lim1 row)) as [H1|H1].
      * rewrite filter_cons_True by done. by apply sublist_cons.
      * by rewrite filter_cons_False.
Qed.

Lemma row_is_valid_monotone_witness :
  (∀ row, outcome (row_is_valid row (Fin 10)) = Ok true →
          outcome (row_is_valid row (Fin 3)) = Ok true)
  ∧ (∀ l : list Row,
       filter (qualifies (Fin 10)) l `sublist_of` filter (qualifies (Fin 3)) l).
Proof. apply (row_is_valid_monotone (Fin 3) (Fin 10)). reflexivity. Defined.

(** C7: the second [z_flux > lim] conjunct changes nothing.  For every row
    and threshold, [row_is_valid] and the predicate with one check per
    column give the same outcome: the same boolean, or the same
    exception. *)
Theorem duplicate_z_flux_noop row lim :
  outcome (row_is_valid row lim) = outcome (row_is_valid_dedup row lim).
Proof. apply row_is_valid_dedup_outcome. Qed.

(** C10: the conjunction does not short-circuit.  Whenever [row_is_valid]
    returns, whatever the boolean, it has read every listed column in source
    order, [ch1_servs_flux] being read only when [ch1_swire_flux > lim] is
    false.  Hence a row that lacks any other of the columns raises
    [KeyError], whatever its values in the remaining columns; a row that
    lacks only [ch1_servs_flux] returns when [ch1_swire_flux > lim] and
    raises otherwise. *)
Theorem row_is_valid_reads_every_column row lim :
  (returns (row_is_valid row lim) →
   ∃ swire, row !! "ch1_swire_flux" = Some swire
            ∧ trace (row_is_valid row lim) = reads (flux_gtb swire lim))
  ∧ (∀ c, c ∈ always_read → row !! c = None →
          ∃ c', outcome (row_is_valid row lim) = Raise (KeyError c'))
  ∧ (has_columns row always_read → row !! "ch1_servs_flux" = None →
     (above row lim "ch1_swire_flux" → returns (row_is_valid row lim))
     ∧ (¬ above row lim "ch1_swire_flux" →
        outcome (row_is_valid row lim) = Raise (KeyError "ch1_servs_flux"))).
Proof.
  split_and!.
  - apply row_is_valid_trace.
  - intros c. apply row_is_valid_absent.
  - apply row_is_valid_servs_absent.
Qed.

(** A row that already fails the [u_flux] conjunct and has no [F_MIPS_24]
    column. *)
Lemma row_is_valid_reads_every_column_witness :
  ∃ c', outcome (row_is_valid (delete "F_MIPS_24" (sample_row (Fin 0) (Fin 0)))
                              (Fin 10))
        = Raise (KeyError c').
Proof.
  apply (proj1 (proj2 (row_is_valid_reads_every_column
                         (delete "F_MIPS_24" (sample_row (Fin 0) (Fin 0)))
                         (Fin 10))) "F_MIPS_24").
  - unfold always_read. set_solver.
  - vm_compute. reflexivity.
Defined.

(** ** The selection *)


(** C3: a table returned by [short_table] has between 0 and 50 rows. *)
Theorem short_table_at_most_50 table lim res :
  outcome (short_table table lim) = Ok res → 0 ≤ len res ≤ 50.
Proof.
  intros Hres. apply short_table_Ok in Hres. subst res.
  unfold len. cbn [rows]. rewrite length_fmap, length_take. lia.
Qed.


(** C5: a table returned by [short_table] has the column names and the
    per-column dtypes of its input, in the same order; in particular when
    the input is not empty. *)
Theorem short_table_same_schema table lim res :
  outcome (short_table table lim) = Ok res →
  names res = columns_names table ∧ dtype res = columns_dtype table.
Proof. intros Hres. apply short_table_Ok in Hres. by subst res. Qed.

(** C8: an exception of [row_is_valid] on a row the scan reaches is the
    outcome of [short_table]: no table is returned.  A row is reached when
    the rows before it can all be evaluated and fewer than 50 of them
    qualify. *)
Theorem short_table_propagates table lim pre row rest e :
  records table = pre ++ row :: rest →
  Forall (λ r, returns (row_is_valid r lim)) pre →
  length (filter (qualifies lim) pre) < 50 →
  outcome (row_is_valid row lim) = Raise e →
  outcome (short_table table lim) = Raise e.
Proof.
  intros Hrows Hpre Hroom Hraise. unfold short_table.
  rewrite Hrows, short_table_loop_app, outcome_bind.
  destruct (short_table_loop_returns lim pre
              (new_Table (columns_names table) (columns_dtype table)) Hpre)
    as [sel Hsel].
  rewrite Hsel. apply short_table_loop_Ok in Hsel.
  rewrite short_table_loop_cons.
  destruct (Nat.leb_spec 50 (len sel)) as [Hfull|_].
  - subst sel. revert Hfull. unfold len, new_Table. cbn [rows length app].
    rewrite length_fmap, length_take. lia.
  - by rewrite outcome_bind, Hraise.
Qed.

(** C9: on a source table without rows [short_table] raises nothing, reads
    nothing, and returns a table without rows that has the source schema. *)
Theorem short_table_empty table lim :
  records table = [] →
  ∃ res, short_table table lim = ([], Ok res)
         ∧ rows res = []
         ∧ names res = columns_names table ∧ dtype res = columns_dtype table.
Proof.
  intros Hrows.
  exists (new_Table (columns_names table) (columns_dtype table)).
  unfold short_table. by rewrite Hrows.
Qed.

(** * Further properties of the program *)

(** ** Which columns the predicate touches *)

Lemma returns_Ok {A} (a : A) : (∃ a', Ok a = Ok a') ↔ True.
Proof. split; eauto. Qed.

Lemma returns_Raise {A} e : (∃ a' : A, Raise e = Ok a') ↔ False.
Proof. split; [|done]. by intros [a' ?]. Qed.

Lemma row_is_valid_trace_prefix row lim :
  ∃ swire, trace (row_is_valid row lim) `prefix_of` reads swire.
Proof.
  unfold row_is_valid. repeat read_column; rewrite ?trace_ret;
    first [ by exists true; eexists | by exists false; eexists ].
Qed.

Lemma row_is_valid_trace_length row lim :
  1 ≤ length (trace (row_is_valid row lim)) ≤ 13.
Proof.
  destruct (row_is_valid_trace_prefix row lim) as [swire Hpre].
  apply prefix_length in Hpre. split.
  - unfold row_is_valid. rewrite trace_bind_exceeds. simpl. lia.
  - destruct swire; simpl in Hpre; lia.
Qed.

Lemma row_is_valid_trace_columns row lim c :
  c ∈ trace (row_is_valid row lim) → c ∈ flux_columns.
Proof.
  destruct (row_is_valid_trace_prefix row lim) as [swire [k Hk]].
  intros Hc. assert (c ∈ reads swire) as Hin by (rewrite Hk; set_solver).
  revert Hin. unfold flux_columns, required_columns, reads.
  destruct swire; simpl app; rewrite !elem_of_cons, !elem_of_nil; tauto.
Qed.

(** X1: [row_is_valid] reads the columns in the order of the source
    expression and stops at the first read that fails: on every row its
    reads are a non-empty prefix of the full reading order, so it reads at
    most thirteen times and never reads a column outside the twelve flux
    columns. *)
Theorem row_is_valid_reads_in_order row lim :
  (∃ swire, trace (row_is_valid row lim) `prefix_of` reads swire)
  ∧ 1 ≤ length (trace (row_is_valid row lim)) ≤ 13
  ∧ ∀ c, c ∈ trace (row_is_valid row lim) → c ∈ flux_columns.
Proof.
  split; [apply row_is_valid_trace_prefix|].
  split; [apply row_is_valid_trace_length|].
  intros c. apply row_is_valid_trace_columns.
Qed.

(** X2: the predicate depends on the twelve flux columns only.  Two rows that
    agree on them give the same answer, the same exception and the same
    reads, whatever their other columns hold. *)
Theorem row_is_valid_other_columns (row row' : Row) lim :
  (∀ c, c ∈ flux_columns → row !! c = row' !! c) →
  row_is_valid row lim = row_is_valid row' lim.
Proof.
  intros Hagree.
  assert (Forall (λ c, row !! c = row' !! c) flux_columns) as Hall
    by by apply Forall_forall.
  unfold flux_columns, required_columns in Hall. simpl app in Hall.
  rewrite !Forall_cons in Hall. destruct_and!.
  unfold row_is_valid, exceeds, getitem.
  repeat match goal with E : row !! _ = _ |- _ => rewrite E; clear E end.
  reflexivity.
Qed.

(** A row with an extra [i_rcs_flux] column, which the predicate does not
    look at. *)
Lemma row_is_valid_other_columns_witness :
  row_is_valid (<["i_rcs_flux" := NaN]> bright) (Fin 10)
  = row_is_valid bright (Fin 10).
Proof.
  apply (row_is_valid_other_columns (<["i_rcs_flux" := NaN]> bright) bright).
  intros c Hc. apply lookup_insert_ne. intros <-. revert Hc.
  unfold flux_columns, required_columns. simpl app.
  rewrite !elem_of_cons, elem_of_nil. intuition discriminate.
Defined.

Lemma row_is_valid_returns_iff row lim :
  returns (row_is_valid row lim) ↔
  has_columns row always_read
  ∧ (above row lim "ch1_swire_flux" ∨ is_Some (row !! "ch1_servs_flux")).
Proof.
  unfold returns, has_columns, always_read, row_is_valid.
  rewrite !Forall_cons, Forall_nil.
  repeat read_column; rewrite ?outcome_ret, ?returns_Ok, ?returns_Raise;
    know_columns; rewrite ?is_Some_alt; intuition congruence.
Qed.

Lemma row_is_valid_KeyError row lim e :
  outcome (row_is_valid row lim) = Raise e →
  ∃ c, e = KeyError c
       ∧ row !! c = None
       ∧ c ∈ flux_columns
       ∧ last (trace (row_is_valid row lim)) = Some c
       ∧ has_columns row (removelast (trace (row_is_valid row lim))).
Proof.
  unfold row_is_valid, has_columns.
  repeat read_column; rewrite ?outcome_ret, ?trace_ret; try discriminate.
  all: intros [= <-]; eexists; split_and!;
    [ reflexivity | eassumption
    | unfold flux_columns, required_columns; set_solver
    | reflexivity
    | simpl; repeat constructor; eauto ].
Qed.

(** X3: when the predicate raises.  [row_is_valid] returns exactly when the
    row has every column other than [ch1_servs_flux], and has
    [ch1_servs_flux] too unless [ch1_swire_flux > lim].  Otherwise it raises
    [KeyError] for a flux column the row lacks: the one it read last, every
    column read before it being present. *)
Theorem row_is_valid_raises_iff row lim :
  (returns (row_is_valid row lim) ↔
   has_columns row always_read
   ∧ (above row lim "ch1_swire_flux" ∨ is_Some (row !! "ch1_servs_flux")))
  ∧ ∀ e, outcome (row_is_valid row lim) = Raise e →
         ∃ c, e = KeyError c
              ∧ row !! c = None
              ∧ c ∈ flux_columns
              ∧ last (trace (row_is_valid row lim)) = Some c
              ∧ has_columns row (removelast (trace (row_is_valid row lim))).
Proof.
  split; [apply row_is_valid_returns_iff|].
  intros e. apply row_is_valid_KeyError.
Qed.

(** A row without [g_flux] and without [K_flux]: the exception names
    [g_flux], which is read first. *)
Lemma row_is_valid_raises_iff_witness :
  ∃ c, KeyError "g_flux" = KeyError c
       ∧ delete "g_flux" (delete "K_flux" bright) !! c = None
       ∧ c ∈ flux_columns
       ∧ last (trace (row_is_valid (delete "g_flux" (delete "K_flux" bright))
                        (Fin 10))) = Some c
       ∧ has_columns (delete "g_flux" (delete "K_flux" bright))
           (removelast
              (trace (row_is_valid (delete "g_flux" (delete "K_flux" bright))
                        (Fin 10)))).
Proof.
  apply (proj2 (row_is_valid_raises_iff
                  (delete "g_flux" (delete "K_flux" bright)) (Fin 10))).
  vm_compute. reflexivity.
Defined.

(** X4: a NaN flux never passes.  A row whose value in a required column is
    NaN, or whose two [ch1] values are both NaN, is not valid at any
    threshold. *)
Theorem row_is_valid_nan_cell row lim :
  (∀ c, c ∈ required_columns → row !! c = Some NaN →
        outcome (row_is_valid row lim) ≠ Ok true)
  ∧ (row !! "ch1_swire_flux" = Some NaN → row !! "ch1_servs_flux" = Some NaN →
     outcome (row_is_valid row lim) ≠ Ok true).
Proof.
  assert (∀ c, row !! c = Some NaN → ¬ above row lim c) as Hnan.
  { intros c Hc (v & Hv & Hlt). assert (v = NaN) as -> by congruence.
    by destruct lim. }
  split.
  - intros c Hc Hv Hq. apply qualifies_iff in Hq as (Hall & _).
    rewrite Forall_forall in Hall. by apply (Hnan c Hv), Hall.
  - intros Hv Hw Hq. apply qualifies_iff in Hq as (_ & _ & [H|H]);
      by eapply Hnan in H.
Qed.

Lemma row_is_valid_nan_cell_witness :
  outcome (row_is_valid (<["K_flux" := NaN]> bright) (Fin 10)) ≠ Ok true.
Proof.
  apply (proj1 (row_is_valid_nan_cell (<["K_flux" := NaN]> bright) (Fin 10))
           "K_flux").
  - unfold required_columns. set_solver.
  - vm_compute. reflexivity.
Defined.

(** ** What the selection holds *)

Lemma filter_none {A} (P : A → Prop) `{!∀ x, Decision (P x)} l :
  (∀ x, ¬ P x) → filter P l = [].
Proof.
  intros Hnone. induction l as [|x l IH]; [done|].
  by rewrite filter_cons_False.
Qed.

Lemma filter_qualifies_mono lim1 lim2 (l : list Row) :
  flux_leb lim1 lim2 = true →
  filter (qualifies lim2) l `sublist_of` filter (qualifies lim1) l.
Proof.
  intros Hle. induction l as [|row l IH]; [done|].
  destruct (decide (qualifies lim2 row)) as [H2|H2].
  - rewrite !filter_cons_True by eauto using qualifies_mono.
    by apply sublist_skip.
  - rewrite (filter_cons_False (qualifies lim2)) by done.
    destruct (decide (qualifies lim1 row)) as [H1|H1].
    + rewrite filter_cons_True by done. by apply sublist_cons.
    + by rewrite filter_cons_False.
Qed.

(** X6: below the cap nothing is left out.  If the returned table has fewer
    than 50 rows, it holds one row for every qualifying row of the source:
    its rows are the stored copies of exactly the source rows that pass the
    predicate, in source order. *)
Theorem short_table_complete_below_cap table lim res :
  outcome (short_table table lim) = Ok res →
  len res < 50 →
  rows res
  = stored_row (columns_names table) (columns_dtype table)
    <$> filter (qualifies lim) (records table)
  ∧ ∀ row, row ∈ records table → outcome (row_is_valid row lim) = Ok true →
           stored_row (columns_names table) (columns_dtype table) row
           ∈ rows res.
Proof.
  intros Hres Hlen. apply short_table_Ok in Hres. subst res.
  unfold len in Hlen. cbn [rows] in *.
  rewrite length_fmap, length_take in Hlen.
  rewrite take_ge by lia. split; [done|].
  intros row Hrow Hq. apply list_elem_of_fmap_2. by apply list_elem_of_filter.
Qed.

Lemma short_table_length table lim res :
  outcome (short_table table lim) = Ok res →
  len res = 50 `min` length (filter (qualifies lim) (records table)).
Proof.
  intros Hres. apply short_table_Ok in Hres. subst res.
  unfold len. cbn [rows]. by rewrite length_fmap, length_take.
Qed.

(** X8: the number of rows returned is the number of qualifying source rows,
    or 50 when there are more. *)
Theorem short_table_row_count table lim res :
  outcome (short_table table lim) = Ok res →
  len res = 50 `min` length (filter (qualifies lim) (records table)).
Proof. apply short_table_length. Qed.

(** X9: raising the threshold never returns more rows.  If [lim1 <= lim2]
    and both calls return, the table selected at [lim2] has at most as many
    rows as the one selected at [lim1]. *)
Theorem short_table_threshold_count table lim1 lim2 res1 res2 :
  flux_leb lim1 lim2 = true →
  outcome (short_table table lim1) = Ok res1 →
  outcome (short_table table lim2) = Ok res2 →
  len res2 ≤ len res1.
Proof.
  intros Hle H1 H2.
  rewrite (short_table_length _ _ _ H1), (short_table_length _ _ _ H2).
  pose proof (sublist_length _ _
                (filter_qualifies_mono lim1 lim2 (records table) Hle)).
  lia.
Qed.

(** X10: rows appended to the source never change what was already
    selected.  If the call returns on a table and on the same table with more
    rows after it, the first result is a prefix of the second; and when the
    first result already holds 50 rows the two results are the same. *)
Theorem short_table_append table more lim res res' :
  outcome (short_table table lim) = Ok res →
  outcome (short_table
             (mkFITS_rec (columns_names table) (columns_dtype table)
                (records table ++ more)) lim)
  = Ok res' →
  rows res `prefix_of` rows res' ∧ (len res = 50 → res' = res).
Proof.
  intros Hres Hres'. apply short_table_Ok in Hres, Hres'. subst res res'.
  unfold len. cbn [names dtype rows columns_names columns_dtype records].
  rewrite filter_app, take_app, fmap_app. split.
  - by eexists.
  - rewrite length_fmap, length_take. intros Hfull.
    replace (50 - length (filter (qualifies lim) (records table)))
      with 0 by lia.
    rewrite take_0. cbn [fmap list_fmap]. by rewrite app_nil_r.
Qed.

Lemma qualifies_unreachable lim row :
  lim = NaN ∨ lim = PInf → ¬ qualifies lim row.
Proof.
  intros Hlim (Hall & _)%qualifies_iff.
  apply Forall_cons in Hall as [(v & _ & Hlt) _].
  by destruct Hlim as [-> | ->], v.
Qed.

(** X13: a threshold that no flux exceeds selects nothing.  With [lim] NaN
    or plus infinity, a call that returns gives a table without rows. *)
Theorem short_table_unreachable_threshold table lim res :
  lim = NaN ∨ lim = PInf →
  outcome (short_table table lim) = Ok res →
  rows res = [].
Proof.
  intros Hlim Hres. apply short_table_Ok in Hres. subst res. cbn [rows].
  rewrite filter_none; [done|]. intros row. by apply qualifies_unreachable.
Qed.

End selection.

(** * The sample tables

    The properties of the selection, read on the sample tables with the
    conversion [sample_astype]. *)

(** Scenario 1: three bright rows are all kept. *)
Example scenario_all_kept :
  outcome (short_table sample_astype (sample_table 3) (Fin 10))
  = Ok (mkTable flux_columns (replicate 12 "f8") (replicate 3 bright)).
Proof. vm_compute. reflexivity. Qed.



(** Sixty bright rows: the cap is reached. *)
Lemma short_table_at_most_50_witness :
  ∃ res, outcome (short_table sample_astype (sample_table 60) (Fin 10)) = Ok res
         ∧ 0 ≤ len res ≤ 50.
Proof.
  destruct (short_table_loop_returns sample_astype (Fin 10)
              (records (sample_table 60))
              (new_Table (columns_names (sample_table 60))
                 (columns_dtype (sample_table 60))))
    as [res Hres].
  - apply Forall_replicate. exists true. vm_compute. reflexivity.
  - exists res. split; [exact Hres|].
    exact (short_table_at_most_50 sample_astype (sample_table 60) (Fin 10)
             res Hres).
Defined.



Lemma short_table_same_schema_witness :
  outcome (short_table sample_astype mixed_table (Fin 10))
  = Ok (mkTable flux_columns (replicate 12 "f8")
          [bright; <["u_flux" := Fin 200]> bright])
  ∧ flux_columns = columns_names mixed_table
  ∧ replicate 12 "f8" = columns_dtype mixed_table.
Proof.
  assert (outcome (short_table sample_astype mixed_table (Fin 10))
          = Ok (mkTable flux_columns (replicate 12 "f8")
                  [bright; <["u_flux" := Fin 200]> bright])) as Hres
    by (vm_compute; reflexivity).
  split; [exact Hres|].
  exact (short_table_same_schema sample_astype mixed_table (Fin 10) _ Hres).
Defined.

(** A table without the [K_flux] column: the first row is reached and
    cannot be evaluated. *)
Lemma short_table_propagates_witness :
  outcome (short_table sample_astype
             (mkFITS_rec always_read (replicate 11 "f8")
                [delete "K_flux" bright; delete "K_flux" bright;
                 delete "K_flux" bright])
             (Fin 10))
  = Raise (KeyError "K_flux").
Proof.
  apply (short_table_propagates sample_astype _ (Fin 10) []
           (delete "K_flux" bright)
           [delete "K_flux" bright; delete "K_flux" bright]).
  - reflexivity.
  - constructor.
  - simpl. lia.
  - vm_compute. reflexivity.
Defined.

(** Scenario 5. *)
Lemma short_table_empty_witness :
  ∃ res, short_table sample_astype (sample_table 0) (Fin 10) = ([], Ok res)
         ∧ rows res = []
         ∧ names res = columns_names (sample_table 0)
         ∧ dtype res = columns_dtype (sample_table 0).
Proof.
  apply (short_table_empty sample_astype (sample_table 0) (Fin 10)).
  reflexivity.
Defined.

Lemma short_table_complete_below_cap_witness :
  [bright; <["u_flux" := Fin 200]> bright]
  = stored_row sample_astype flux_columns (replicate 12 "f8")
    <$> filter (qualifies (Fin 10)) (records mixed_table)
  ∧ ∀ row, row ∈ records mixed_table →
           outcome (row_is_valid row (Fin 10)) = Ok true →
           stored_row sample_astype flux_columns (replicate 12 "f8") row
           ∈ [bright; <["u_flux" := Fin 200]> bright].
Proof.
  apply (short_table_complete_below_cap sample_astype mixed_table (Fin 10)
           (mkTable flux_columns (replicate 12 "f8")
              [bright; <["u_flux" := Fin 200]> bright])).
  - vm_compute. reflexivity.
  - vm_compute. lia.
Defined.

Lemma short_table_row_count_witness :
  len (mkTable flux_columns (replicate 12 "f8")
         [bright; <["u_flux" := Fin 200]> bright])
  = 50 `min` length (filter (qualifies (Fin 10)) (records mixed_table)).
Proof.
  apply (short_table_row_count sample_astype mixed_table (Fin 10)).
  vm_compute. reflexivity.
Defined.

Lemma short_table_threshold_count_witness :
  len (mkTable flux_columns (replicate 12 "f8")
         [bright; <["u_flux" := Fin 200]> bright])
  ≤ len (mkTable flux_columns (replicate 12 "f8")
           [bright; dim; <["u_flux" := Fin 200]> bright]).
Proof.
  apply (short_table_threshold_count sample_astype mixed_table
           (Fin 0) (Fin 10)).
  - reflexivity.
  - vm_compute. reflexivity.
  - vm_compute. reflexivity.
Defined.

Lemma short_table_append_witness :
  [bright] `prefix_of` [bright; <["u_flux" := Fin 200]> bright]
  ∧ (len (mkTable flux_columns (replicate 12 "f8") [bright]) = 50 →
     mkTable flux_columns (replicate 12 "f8")
       [bright; <["u_flux" := Fin 200]> bright]
     = mkTable flux_columns (replicate 12 "f8") [bright]).
Proof.
  apply (short_table_append sample_astype
           (mkFITS_rec flux_columns (replicate 12 "f8") [bright])
           [dim; <["u_flux" := Fin 200]> bright] (Fin 10)
           (mkTable flux_columns (replicate 12 "f8") [bright])
           (mkTable flux_columns (replicate 12 "f8")
              [bright; <["u_flux" := Fin 200]> bright])).
  - vm_compute. reflexivity.
  - vm_compute. reflexivity.
Defined.

Lemma short_table_unreachable_threshold_witness :
  rows (mkTable flux_columns (replicate 12 "f8") []) = [].
Proof.
  apply (short_table_unreachable_threshold sample_astype (sample_table 3) NaN).
  - by left.
  - vm_compute. reflexivity.
Defined.
